(** * supergiant: the preProvision composite step and the kube service

    A shallow embedding of [pkg/workflows/steps/provider/preprovision.go]
    (the composite step [StepPreProvision] and its per-provider pipeline
    [prepProvisionStepFor]) and of [Service.Create] of package [kube],
    followed by the properties of the step-pipeline engine that the
    specification states about them.

    Go packages are rendered as modules of the same name, so that
    [steps.GetStep], [errors.Wrap] or [provider.prepProvisionStepFor] read
    as they do in the source. *)

From stdpp Require Import gmap strings list.

(** ** github.com/pkg/errors

    The two constructors the code uses.  [errors.New] builds a leaf error
    that carries a message; [errors.Wrap] returns nil for a nil error and
    otherwise a new error that keeps the wrapped one as its cause (the stack
    that the library also records has no observable role here). *)
Module errors.

Inductive error : Type :=
  | fundamental (msg : string)
  | withMessage (cause : error) (msg : string).

Definition New (message : string) : error := fundamental message.

Definition Wrap (err : option error) (message : string) : option error :=
  match err with
  | None => None
  | Some e => Some (withMessage e message)
  end.

(** The [Error()] method: a wrapper prints its message, a colon and the
    message of what it wraps. *)
Fixpoint Error (e : error) : string :=
  match e with
  | fundamental msg => msg
  | withMessage cause msg => msg +:+ ": " +:+ Error cause
  end.




End errors.

(** How a call ends: it returns its error result (nil is [None]), or the Go
    runtime panics (a method call through a nil interface value, a nil
    pointer dereference, a slice bound out of range). *)
Inductive Outcome : Type :=
| Returned (err : option errors.error)
| Panicked.

(** ** package clouds

    [clouds.Name] is a string type.  The provider constants are declared in
    package [clouds] and the step names in packages [amazon] and [azure];
    [preprovision.go] only refers to them, so they are parameters of the
    development. *)
Module clouds.
Definition Name : Type := string.
End clouds.

Class Constants : Type := {
  (* package clouds *)
  AWS : clouds.Name;
  DigitalOcean : clouds.Name;
  GCE : clouds.Name;
  Azure : clouds.Name;
  (* package amazon *)
  StepFindAMI : string;
  StepCreateVPC : string;
  StepCreateSecurityGroups : string;
  StepNameCreateInstanceProfiles : string;
  StepImportKeyPair : string;
  StepCreateInternetGateway : string;
  StepCreateSubnets : string;
  StepCreateRouteTable : string;
  StepAssociateRouteTable : string;
  (* package azure *)
  CreateGroupStepName : string;
  CreateVNetStepName : string
}.


(** ** package steps

    The step contract, the shared configuration and the registry. *)
Module steps.

(** [steps.Config]: the code under study reads the field [Provider] only;
    the intermediate outputs that steps exchange are kept as a map. *)
Record Config : Type := mkConfig {
  Provider : clouds.Name;
  Outputs : gmap string string
}.

(** What a step can reach through its three arguments: the cancellation
    state of [ctx], the text appended so far to the writer [out], and the
    configuration that the non-nil pointer [cfg] refers to.  A step's
    function may change [ctx_done]: this stands for the caller cancelling
    the context while the step was running. *)
Record Mem : Type := mkMem {
  ctx_done : bool;
  out : list string;
  cfg : Config
}.

(** The interface [steps.Step], with the method set that
    [StepPreProvision] implements. *)
Record Step : Type := mkStep {
  Name : string;
  Description : string;
  Depends : list string;
  Run : Mem → Mem * option errors.error;
  Rollback : Mem → Mem * option errors.error
}.

(** Modelled from the spec: [steps.GetStep], whose body is in package
    [steps]: a lookup in the process-wide registry, [None] (the nil
    interface value) when no step was registered under the name. *)
Definition GetStep (registry : gmap string Step) (name : string) : option Step :=
  registry !! name.

End steps.

(** ** package provider *)
Module provider.
Import errors steps.

Definition PreProvisionStep : string := "preProvision".

(** The calls the engine makes on inner steps, each with what it returned,
    in the order they were made. *)
Inductive Event : Type :=
| EvRun (s : Step) (ret : option error)
| EvRollback (s : Step) (ret : option error).

(** What a call of the composite step leaves behind and how it ends. *)
Record Result : Type := mkResult {
  res_ctx_done : bool;
  res_out : list string;
  res_cfg : option Config;
  res_log : list Event;
  res_ret : Outcome
}.

Section WithConstants.
Context `{Constants}.

(** [prepProvisionStepFor]: the [switch] tries its cases in order. *)
Definition prepProvisionStepFor (registry : gmap string Step)
    (provider : clouds.Name) : list (option Step) * option error :=
  if decide (provider = AWS) then
    ([ GetStep registry StepFindAMI;
       GetStep registry StepCreateVPC;
       GetStep registry StepCreateSecurityGroups;
       GetStep registry StepNameCreateInstanceProfiles;
       GetStep registry StepImportKeyPair;
       GetStep registry StepCreateInternetGateway;
       GetStep registry StepCreateSubnets;
       GetStep registry StepCreateRouteTable;
       GetStep registry StepAssociateRouteTable ], None)
  else if decide (provider = DigitalOcean) then ([], None)
  else if decide (provider = GCE) then ([], None)
  else if decide (provider = Azure) then
    ([ GetStep registry CreateGroupStepName;
       GetStep registry CreateVNetStepName ], None)
  else ([], Some (New ("unknown provider: " +:+ provider))).

(** The [for _, s := range steps] loop of [Run].  [Some o] is a [return]
    (or a panic) from inside the loop, [None] is the loop running to its
    end. *)
Fixpoint range_steps (ss : list (option Step)) (m : Mem)
    : Mem * list Event * option Outcome :=
  match ss with
  | [] => (m, [], None)
  | None :: _ => (m, [], Some Panicked)
  | Some s :: rest =>
      let '(m1, err) := Run s m in
      match err with
      | Some e =>
          (m1, [EvRun s (Some e)], Some (Returned (Wrap (Some e) PreProvisionStep)))
      | None =>
          let '(m2, log, o) := range_steps rest m1 in
          (m2, EvRun s None :: log, o)
      end
  end.

(** [StepPreProvision.Run]; the pointer [cfg] may be nil ([None]). *)
Definition StepPreProvision_Run (registry : gmap string Step)
    (ctx_done : bool) (out : list string) (cfg : option Config) : Result :=
  match cfg with
  | None => mkResult ctx_done out None [] (Returned (Some (New "invalid config")))
  | Some c =>
      let '(steps, err) := prepProvisionStepFor registry (Provider c) in
      match err with
      | Some e =>
          mkResult ctx_done out (Some c) [] (Returned (Wrap (Some e) PreProvisionStep))
      | None =>
          let '(m, log, o) := range_steps steps (mkMem ctx_done out c) in
          mkResult (steps.ctx_done m) (steps.out m) (Some (steps.cfg m)) log
            match o with
            | Some ret => ret
            | None => Returned None
            end
      end
  end.

End WithConstants.

Definition StepPreProvision_Name : string := PreProvisionStep.

Definition StepPreProvision_Description : string := PreProvisionStep.

Definition StepPreProvision_Depends : list string := [].

(** [StepPreProvision.Rollback] ignores its three arguments and calls
    nothing. *)
Definition StepPreProvision_Rollback
    (ctx_done : bool) (out : list string) (cfg : option Config) : Result :=
  mkResult ctx_done out cfg [] (Returned None).

End provider.

(** ** package kube: [Service.Create] *)
Module kube.
Import errors.

Definition bytes : Type := list Byte.byte.

Section WithModel.

(** [model.Kube] is declared in package [model]; [Create] touches its [ID]
    only, the other fields are a parameter. *)
Variable Fields : Type.

Record Kube : Type := mkKube {
  ID : string;
  fields : Fields
}.

(** The state behind the [storage.Interface] value of the service. *)
Variable Store : Type.

(** [json.Marshal] at [*model.Kube]: bytes and an error. *)
Variable json_Marshal : Kube → bytes * option error.

(** [Service], with the two fields [Create] uses; [storage_Put] is the
    [Put(ctx, prefix, key, value)] method of the [storage] field, given the
    cancellation state of [ctx] and the state of the store. *)
Record Service : Type := mkService {
  prefix : string;
  storage_Put : bool → Store → string → string → bytes → Store * option error
}.

Record CreateResult : Type := mkCreateResult {
  cr_kube : option Kube;                     (* what [k] points to afterwards *)
  cr_store : Store;
  cr_puts : list (string * string * bytes);   (* the calls of [Put] *)
  cr_ret : Outcome
}.

(** [uuid.New()[:8]]: slicing panics when the string has fewer than 8
    bytes. *)
Definition slice_to_8 (u : string) : option string :=
  if decide (8 ≤ String.length u) then Some (String.substring 0 8 u) else None.

(** [Service.Create].  [uuid_New] is the string that the call [uuid.New()]
    returns, should it be made; [k] is a pointer and may be nil. *)
Definition Create (s : Service) (uuid_New : string) (ctx_done : bool)
    (st : Store) (k : option Kube) : CreateResult :=
  match k with
  | None => mkCreateResult None st [] Panicked
  | Some k0 =>
      let assigned :=
        if decide (ID k0 = "") then
          match slice_to_8 uuid_New with
          | Some id => Some (mkKube id (fields k0))
          | None => None
          end
        else Some k0 in
      match assigned with
      | None => mkCreateResult (Some k0) st [] Panicked
      | Some k1 =>
          let '(raw, err) := json_Marshal k1 in
          match err with
          | Some e => mkCreateResult (Some k1) st [] (Returned (Wrap (Some e) "marshal"))
          | None =>
              let '(st1, err1) := storage_Put s ctx_done st (prefix s) (ID k1) raw in
              match err1 with
              | Some e =>
                  mkCreateResult (Some k1) st1 [(prefix s, ID k1, raw)]
                    (Returned (Wrap (Some e) "storage: put"))
              | None =>
                  mkCreateResult (Some k1) st1 [(prefix s, ID k1, raw)] (Returned None)
              end
          end
      end
  end.

End WithModel.

Arguments mkKube {Fields} _ _.
Arguments ID {Fields} _.
Arguments fields {Fields} _.
Arguments mkService {Store} _ _.
Arguments prefix {Store} _.
Arguments storage_Put {Store} _ _ _ _ _ _.
Arguments mkCreateResult {Fields Store} _ _ _ _.
Arguments cr_kube {Fields Store} _.
Arguments cr_store {Fields Store} _.
Arguments cr_puts {Fields Store} _.
Arguments cr_ret {Fields Store} _.
Arguments Create {Fields Store} _ _ _ _ _ _.

End kube.

(** ** Fixture values

    Concrete constants, steps and registries on which the statements below
    are instantiated.  The strings stand in for the constants of packages
    [clouds], [amazon] and [azure]. *)
Module samples.
Import errors steps provider.

#[export] Instance names : Constants := {|
  AWS := "aws";
  DigitalOcean := "digitalocean";
  GCE := "gce";
  Azure := "azure";
  StepFindAMI := "find_ami";
  StepCreateVPC := "create_vpc";
  StepCreateSecurityGroups := "create_security_groups";
  StepNameCreateInstanceProfiles := "create_instance_profiles";
  StepImportKeyPair := "import_key_pair";
  StepCreateInternetGateway := "create_internet_gateway";
  StepCreateSubnets := "create_subnets";
  StepCreateRouteTable := "create_route_table";
  StepAssociateRouteTable := "associate_route_table";
  CreateGroupStepName := "create_group";
  CreateVNetStepName := "create_vnet"
|}.

(** A step that reports on [out], records an output in the configuration
    and succeeds; its [Rollback] removes the output. *)
Definition ok_step (name : string) : Step :=
  mkStep name name []
    (λ m, (mkMem (ctx_done m) (out m ++ [name])
             (mkConfig (Provider (cfg m)) (<[name := "created"]> (Outputs (cfg m)))),
           None))
    (λ m, (mkMem (ctx_done m) (out m ++ ["undo " +:+ name])
             (mkConfig (Provider (cfg m)) (delete name (Outputs (cfg m)))),
           None)).

(** A step that reports on [out] and fails with [e]. *)
Definition failing_step (name : string) (e : error) : Step :=
  mkStep name name []
    (λ m, (mkMem (ctx_done m) (out m ++ [name]) (cfg m), Some e))
    (λ m, (m, None)).

Definition aws_names : list string :=
  [ "find_ami"; "create_vpc"; "create_security_groups";
    "create_instance_profiles"; "import_key_pair"; "create_internet_gateway";
    "create_subnets"; "create_route_table"; "associate_route_table" ].

Definition azure_names : list string := [ "create_group"; "create_vnet" ].

(** Every step of both pipelines registered. *)
Definition registry_full : gmap string Step :=
  list_to_map ((λ n, (n, ok_step n)) <$> (aws_names ++ azure_names)).

Definition quota : error := New "quota exceeded".

(** As [registry_full], but creating the virtual network fails. *)
Definition registry_vnet_fails : gmap string Step :=
  <["create_vnet" := failing_step "create_vnet" quota]> registry_full.

(** As [registry_full], but the virtual network step is not registered. *)
Definition registry_no_vnet : gmap string Step :=
  delete "create_vnet" registry_full.

(** As [registry_no_vnet], and creating the resource group fails. *)
Definition registry_group_fails_no_vnet : gmap string Step :=
  <["create_group" := failing_step "create_group" quota]> registry_no_vnet.

Definition config_of (p : clouds.Name) : Config := mkConfig p ∅.

(** An in-memory store for the kube service: [Put] binds the value to the
    pair of prefix and key and does not fail. *)
Definition memory_store : Type := gmap (string * string) kube.bytes.

Definition memory_service (prefix : string) : kube.Service memory_store :=
  kube.mkService prefix (λ _ st p key value, (<[(p, key) := value]> st, None)).

(** A store whose [Put] always fails. *)
Definition broken_service (prefix : string) : kube.Service memory_store :=
  kube.mkService prefix (λ _ st p key value, (st, Some (New "etcd unavailable"))).

(** A stand-in for [json.Marshal]: the identifier and the name of the
    record. *)
Definition marshal_sample (k : kube.Kube string) : kube.bytes * option error :=
  (String.list_byte_of_string ("id=" +:+ kube.ID k +:+ ";name=" +:+ kube.fields k), None).

Definition uuid_sample : string := "6ba7b810-9dad-11d1-80b4-00c04fd430c8".

End samples.

(** ** Vocabulary of the statements *)
Module trace.
Import errors steps provider.

(** The state in which the step after [ss] is called: each step of [ss] has
    run, in order, on what its predecessor left. *)
Definition mem_after (ss : list Step) (m : Mem) : Mem :=
  foldl (λ m s, (Run s m).1) m ss.

(** The first [k] steps of [ss], run in order from [m], all return nil. *)
Definition succeeds_before (ss : list Step) (m : Mem) (k : nat) : Prop :=
  ∀ i s, i < k → ss !! i = Some s → (Run s (mem_after (take i ss) m)).2 = None.

(** Step number [k] of [ss] is the first whose [Run] returns an error, and
    that error is [E]. *)
Definition first_failure (ss : list Step) (m : Mem) (k : nat) (sk : Step)
    (E : error) : Prop :=
  ss !! k = Some sk ∧ succeeds_before ss m k ∧
  (Run sk (mem_after (take k ss) m)).2 = Some E.

Definition ran_ok (s : Step) : Event := EvRun s None.

(** The steps on which [Run], respectively [Rollback], was invoked. *)
Definition runs (log : list Event) : list Step :=
  omap (λ ev, match ev with EvRun s _ => Some s | EvRollback _ _ => None end) log.

Definition rollbacks (log : list Event) : list Step :=
  omap (λ ev, match ev with EvRollback s _ => Some s | EvRun _ _ => None end) log.

(** Modelled from the spec: the Pipeline Catalog [PipelineFor], from a
    provider identifier to the ordered step names of its pipeline, [None]
    for an identifier outside the closed set.  The source has no such
    function on its own: the names are inlined in [prepProvisionStepFor]. *)
Definition PipelineFor `{Constants} (p : clouds.Name) : option (list string) :=
  if decide (p = AWS) then
    Some [ StepFindAMI; StepCreateVPC; StepCreateSecurityGroups;
           StepNameCreateInstanceProfiles; StepImportKeyPair;
           StepCreateInternetGateway; StepCreateSubnets; StepCreateRouteTable;
           StepAssociateRouteTable ]
  else if decide (p = DigitalOcean) then Some []
  else if decide (p = GCE) then Some []
  else if decide (p = Azure) then Some [ CreateGroupStepName; CreateVNetStepName ]
  else None.

Definition recognized `{Constants} (p : clouds.Name) : Prop :=
  p = AWS ∨ p = DigitalOcean ∨ p = GCE ∨ p = Azure.

(** *** The compensation protocol of the specification, as it is worded

    Three readings of the specification's executor, each as a property of
    one call of [StepPreProvision.Run] on a non-nil configuration. *)

(** When step [k] is the first to fail, [Rollback] is invoked on the steps
    before it, last completed first, and on no other step. *)
Definition rollback_in_reverse `{Constants} (registry : gmap string Step)
    (done : bool) (sink : list string) (c : Config) : Prop :=
  ∀ ss k sk E,
    prepProvisionStepFor registry (Provider c) = (Some <$> ss, None) →
    first_failure ss (mkMem done sink c) k sk E →
    rollbacks (res_log (StepPreProvision_Run registry done sink (Some c)))
      = reverse (take k ss).

(** A name of the provider's catalog entry that the registry does not know
    makes the run return an error. *)
Definition lookup_failure_fatal `{Constants} (registry : gmap string Step)
    (done : bool) (sink : list string) (c : Config) : Prop :=
  ∀ names n,
    PipelineFor (Provider c) = Some names →
    n ∈ names →
    GetStep registry n = None →
    ∃ e, res_ret (StepPreProvision_Run registry done sink (Some c))
           = Returned (Some e).

(** No call is made at position [N] of the pipeline (counted from 0, so
    this is step [N+1]) when the context is cancelled once the [N] steps
    before it have finished. *)
Definition cancellation_observed `{Constants} (registry : gmap string Step)
    (done : bool) (sink : list string) (c : Config) : Prop :=
  ∀ ss N,
    prepProvisionStepFor registry (Provider c) = (Some <$> ss, None) →
    0 < N →
    ctx_done (mem_after (take N ss) (mkMem done sink c)) = true →
    res_log (StepPreProvision_Run registry done sink (Some c)) !! N = None.

End trace.

(** ** The loop *)
Import errors steps provider trace samples.

Lemma succeeds_before_cons (s : Step) (ss : list Step) (m : Mem) (k : nat) :
  succeeds_before (s :: ss) m (S k) ↔
  (Run s m).2 = None ∧ succeeds_before ss (Run s m).1 k.
Proof.
  unfold succeeds_before. split.
  - intros Hall. split.
    + apply (Hall 0 s); [lia | reflexivity].
    + intros i t Hi Ht. apply (Hall (S i) t); [lia | exact Ht].
  - intros [Hs Hrest] [|i] t Hi Ht; simpl in *.
    + by simplify_eq.
    + apply Hrest; [lia | exact Ht].
Qed.

Lemma succeeds_before_0 (ss : list Step) (m : Mem) : succeeds_before ss m 0.
Proof. intros i s Hi. lia. Qed.

Lemma first_failure_head (s : Step) (ss : list Step) (m : Mem) (E : error) :
  (Run s m).2 = Some E → first_failure (s :: ss) m 0 s E.
Proof. intros HE. split; [reflexivity | split; [apply succeeds_before_0 | exact HE]]. Qed.

Lemma first_failure_cons (s : Step) (ss : list Step) (m : Mem) (k : nat)
    (sk : Step) (E : error) :
  first_failure (s :: ss) m (S k) sk E ↔
  (Run s m).2 = None ∧ first_failure ss (Run s m).1 k sk E.
Proof.
  unfold first_failure. rewrite succeeds_before_cons. simpl. tauto.
Qed.

(** Every run of a pipeline either has all its steps succeed or has a first
    failing step. *)
Lemma succeeds_or_fails (ss : list Step) (m : Mem) :
  succeeds_before ss m (length ss) ∨ ∃ k sk E, first_failure ss m k sk E.
Proof.
  revert m. induction ss as [|s ss IH]; intros m.
  - left. apply succeeds_before_0.
  - destruct (Run s m).2 as [E|] eqn:Hs.
    + right. exists 0, s, E. by apply first_failure_head.
    + destruct (IH (Run s m).1) as [Hok | (k & sk & E & Hf)].
      * left. simpl. by apply succeeds_before_cons.
      * right. exists (S k), sk, E. by apply first_failure_cons.
Qed.

(** The loop on a pipeline whose steps all succeed. *)
Lemma range_steps_success (ss : list Step) (m : Mem) :
  succeeds_before ss m (length ss) →
  range_steps (Some <$> ss) m = (mem_after ss m, ran_ok <$> ss, None).
Proof.
  revert m. induction ss as [|s ss IH]; intros m Hok; [reflexivity|].
  simpl in Hok. apply succeeds_before_cons in Hok as [Hs Hrest].
  cbn [fmap list_fmap range_steps].
  destruct (Run s m) as [m1 err] eqn:Hrun. simpl in Hs, Hrest. subst err.
  rewrite (IH m1 Hrest). unfold mem_after. simpl. by rewrite Hrun.
Qed.

(** The loop on a pipeline with a first failing step. *)
Lemma range_steps_failure (ss : list Step) (m : Mem) (k : nat) (sk : Step)
    (E : error) :
  first_failure ss m k sk E →
  range_steps (Some <$> ss) m =
    ((Run sk (mem_after (take k ss) m)).1,
     (ran_ok <$> take k ss) ++ [EvRun sk (Some E)],
     Some (Returned (Some (withMessage E PreProvisionStep)))).
Proof.
  revert m k. induction ss as [|s ss IH]; intros m k Hf.
  - destruct Hf as [Hk _]. by destruct k.
  - destruct k as [|k].
    + destruct Hf as (Hk & _ & HE). simpl in Hk. simplify_eq.
      cbn [fmap list_fmap range_steps take mem_after foldl] in *.
      unfold mem_after in HE. simpl in HE.
      destruct (Run sk m) as [m1 err]. simpl in HE. by subst err.
    + apply first_failure_cons in Hf as [Hs Hrest].
      cbn [fmap list_fmap range_steps].
      destruct (Run s m) as [m1 err] eqn:Hrun. simpl in Hs, Hrest. subst err.
      rewrite (IH m1 k Hrest). unfold mem_after. simpl. by rewrite Hrun.
Qed.

(** The call made at position [N] of the log is the [Run] of step [N], on
    the state its predecessors left, as soon as these all succeeded. *)
Lemma range_steps_lookup (ss : list Step) (m : Mem) (N : nat) (s : Step) :
  ss !! N = Some s →
  succeeds_before ss m N →
  (range_steps (Some <$> ss) m).1.2 !! N =
    Some (EvRun s (Run s (mem_after (take N ss) m)).2).
Proof.
  revert m N. induction ss as [|t ss IH]; intros m N HN Hok; [by destruct N|].
  cbn [fmap list_fmap range_steps]. destruct N as [|N].
  - simpl in HN. simplify_eq. unfold mem_after. simpl.
    destruct (Run s m) as [m1 [e|]]; [reflexivity|].
    by destruct (range_steps (Some <$> ss) m1) as [[m2 log] o].
  - apply succeeds_before_cons in Hok as [Ht Hrest]. simpl in HN.
    specialize (IH (Run t m).1 N HN Hrest).
    unfold mem_after in *. simpl.
    destruct (Run t m) as [m1 err]. simpl in Ht, IH |- *. subst err.
    by destruct (range_steps (Some <$> ss) m1) as [[m2 log] o].
Qed.

(** The loop calls no [Rollback], whatever the pipeline. *)
Lemma range_steps_rollbacks (ps : list (option Step)) (m : Mem) :
  rollbacks (range_steps ps m).1.2 = [].
Proof.
  revert m. induction ps as [|[s|] ps IH]; intros m; [reflexivity| |reflexivity].
  cbn [range_steps]. destruct (Run s m) as [m1 [e|]]; [reflexivity|].
  specialize (IH m1). by destruct (range_steps ps m1) as [[m2 log] o].
Qed.


(** The loop panics exactly when it reaches a nil entry of the pipeline:
    the entries before it are steps that all succeeded. *)
Lemma range_steps_panic (ps : list (option Step)) (m : Mem) :
  (range_steps ps m).2 = Some Panicked ↔
  ∃ ss rest, ps = (Some <$> ss) ++ None :: rest ∧
             succeeds_before ss m (length ss).
Proof.
  revert m. induction ps as [|[t|] ps IH]; intros m; simpl.
  - split; [discriminate|]. intros (ss & rest & Hps & _). by destruct ss.
  - split.
    + destruct (Run t m) as [m1 [e|]] eqn:Hrun; [discriminate|].
      destruct (range_steps ps m1) as [[m2 log] o] eqn:Hloop. simpl.
      intros ->. destruct (IH m1) as [(ss & rest & -> & Hok) _].
      { by rewrite Hloop. }
      exists (t :: ss), rest. split; [reflexivity|].
      simpl. apply succeeds_before_cons. by rewrite Hrun.
    + intros (ss & rest & Hps & Hok). destruct ss as [|t' ss]; [discriminate|].
      simpl in Hps, Hok. simplify_eq.
      apply succeeds_before_cons in Hok as [Ht Hrest].
      destruct (Run t' m) as [m1 err]. simpl in Ht, Hrest. subst err.
      destruct (IH m1) as [_ Hpanic].
      destruct (range_steps _ m1) as [[m2 log] o]. simpl in *.
      apply Hpanic. by exists ss, rest.
  - split; [|done]. intros _. exists [], ps. split; [reflexivity|].
    apply succeeds_before_0.
Qed.

(** What [prepProvisionStepFor] computes, against the catalog: it looks up
    each name of the provider's entry and never reports a failed lookup. *)
Lemma prepProvisionStepFor_catalog `{Constants} (registry : gmap string Step)
    (p : clouds.Name) :
  match PipelineFor p with
  | Some names => prepProvisionStepFor registry p = (GetStep registry <$> names, None)
  | None =>
      prepProvisionStepFor registry p = ([], Some (New ("unknown provider: " +:+ p)))
  end.
Proof.
  unfold PipelineFor, prepProvisionStepFor. by repeat case_decide.
Qed.

Lemma PipelineFor_recognized `{Constants} (p : clouds.Name) :
  recognized p ↔ is_Some (PipelineFor p).
Proof.
  unfold recognized, PipelineFor. repeat case_decide; split;
    try (intros _; eauto; tauto); try (intros [?|[?|[?|?]]]; done);
    by intros [? ?].
Qed.

(** [StepPreProvision.Run] on a non-nil configuration whose provider has a
    pipeline, in terms of the loop. *)
Lemma Run_resolved `{Constants} (registry : gmap string Step) (done : bool)
    (sink : list string) (c : Config) (ps : list (option Step)) :
  prepProvisionStepFor registry (Provider c) = (ps, None) →
  StepPreProvision_Run registry done sink (Some c) =
    let l := range_steps ps (mkMem done sink c) in
    mkResult (ctx_done l.1.1) (out l.1.1) (Some (cfg l.1.1)) l.1.2
      (default (Returned None) l.2).
Proof.
  intros Hps. unfold StepPreProvision_Run. rewrite Hps.
  by destruct (range_steps ps _) as [[m log] [o|]].
Qed.


Lemma runs_ran_ok (l : list Step) : runs (ran_ok <$> l) = l.
Proof.
  induction l as [|t l IH]; [reflexivity|].
  change (t :: runs (ran_ok <$> l) = t :: l). by rewrite IH.
Qed.

Lemma runs_first_failure (ss : list Step) (k : nat) (sk : Step) (E : error) :
  ss !! k = Some sk →
  runs ((ran_ok <$> take k ss) ++ [EvRun sk (Some E)]) = take (S k) ss.
Proof.
  intros Hk. rewrite (take_S_r _ _ _ Hk). unfold runs. rewrite omap_app.
  fold (runs (ran_ok <$> take k ss)). by rewrite runs_ran_ok.
Qed.

(** ** Properties of the composite step *)

(** C1. For a provider whose resolved pipeline is [s1..sn]: a run that
    returns success has invoked [Run] on [s1..sn] in exactly that order,
    each call made on the state left by the previous one, which had
    returned nil; a run in which every step succeeds does return success;
    and when step [k] is the first whose [Run] returns an error, [Run] has
    been invoked on [s1..sk] only, no later step being called. *)
Theorem run_order `{Constants} (registry : gmap string Step) (done : bool)
    (sink : list string) (c : Config) (ss : list Step) :
  prepProvisionStepFor registry (Provider c) = (Some <$> ss, None) →
  let m0 := mkMem done sink c in
  let r := StepPreProvision_Run registry done sink (Some c) in
  (res_ret r = Returned None →
     res_log r = ran_ok <$> ss ∧ succeeds_before ss m0 (length ss)) ∧
  (succeeds_before ss m0 (length ss) → res_ret r = Returned None) ∧
  (∀ k sk E, first_failure ss m0 k sk E →
     res_log r = (ran_ok <$> take k ss) ++ [EvRun sk (Some E)] ∧
     runs (res_log r) = take (S k) ss).
Proof.
  intros Hps m0 r. subst r. rewrite (Run_resolved _ _ _ _ _ Hps). fold m0.
  split; [|split].
  - destruct (succeeds_or_fails ss m0) as [Hok | (k & sk & E & Hf)].
    + rewrite (range_steps_success _ _ Hok). by intros _.
    + rewrite (range_steps_failure _ _ _ _ _ Hf). discriminate.
  - intros Hok. by rewrite (range_steps_success _ _ Hok).
  - intros k sk E Hf. rewrite (range_steps_failure _ _ _ _ _ Hf). simpl.
    split; [reflexivity|]. apply runs_first_failure, Hf.
Qed.

(** On Azure with both steps registered and succeeding, the two calls are
    made in catalog order. *)
Lemma run_order_witness :
  res_log (StepPreProvision_Run registry_full false [] (Some (config_of "azure")))
  = [ ran_ok (ok_step "create_group"); ran_ok (ok_step "create_vnet") ].
Proof.
  pose proof (run_order registry_full false [] (config_of "azure")
                [ok_step "create_group"; ok_step "create_vnet"] eq_refl)
    as (Hsucc & _ & _).
  apply Hsucc. reflexivity.
Defined.

(** C2, as the specification words it, fails: on Azure, with the second
    step failing, the first step has completed and yet is not rolled
    back. *)
Lemma rollback_in_reverse_fails :
  ¬ rollback_in_reverse registry_vnet_fails false [] (config_of "azure").
Proof.
  intros Hclaim.
  assert (Hps : prepProvisionStepFor registry_vnet_fails (Provider (config_of "azure"))
                = (Some <$> [ok_step "create_group"; failing_step "create_vnet" quota], None))
    by (vm_compute; reflexivity).
  specialize (Hclaim _ 1 (failing_step "create_vnet" quota) quota Hps).
  assert (Hf : first_failure
                 [ok_step "create_group"; failing_step "create_vnet" quota]
                 (mkMem false [] (config_of "azure")) 1
                 (failing_step "create_vnet" quota) quota).
  { split; [reflexivity|]. split; [|reflexivity].
    intros [|i] s Hi Hs; [|lia]. simpl in Hs. by simplify_eq. }
  specialize (Hclaim Hf). vm_compute in Hclaim. discriminate.
Qed.

(** C2, amended. When step [k] is the first of the pipeline whose [Run]
    fails, the composite step invokes [Rollback] on no step at all, neither
    on the completed [s1..s(k-1)] nor on [sk..sn]: [Run] has been invoked on
    [s1..sk], what these calls did to the output and the configuration is
    left in place, and the error of [sk] is returned wrapped with the stage
    name. *)
Theorem failure_without_rollback `{Constants} (registry : gmap string Step)
    (done : bool) (sink : list string) (c : Config) (ss : list Step)
    (k : nat) (sk : Step) (E : error) :
  prepProvisionStepFor registry (Provider c) = (Some <$> ss, None) →
  first_failure ss (mkMem done sink c) k sk E →
  let r := StepPreProvision_Run registry done sink (Some c) in
  let m := (Run sk (mem_after (take k ss) (mkMem done sink c))).1 in
  rollbacks (res_log r) = [] ∧
  runs (res_log r) = take (S k) ss ∧
  res_ret r = Returned (Some (withMessage E PreProvisionStep)) ∧
  res_out r = out m ∧ res_cfg r = Some (cfg m).
Proof.
  intros Hps Hf r m. subst r m. rewrite (Run_resolved _ _ _ _ _ Hps).
  split; [apply range_steps_rollbacks|].
  rewrite (range_steps_failure _ _ _ _ _ Hf). simpl.
  split; [apply runs_first_failure, Hf | done].
Qed.

(** On Azure with a failing second step: no rollback, and the line the
    first step wrote is still on the output. *)
Lemma failure_without_rollback_witness :
  let r := StepPreProvision_Run registry_vnet_fails false [] (Some (config_of "azure")) in
  rollbacks (res_log r) = [] ∧
  runs (res_log r) = [ok_step "create_group"; failing_step "create_vnet" quota] ∧
  res_ret r = Returned (Some (withMessage quota "preProvision")) ∧
  res_out r = ["create_group"; "create_vnet"] ∧
  res_cfg r = Some (mkConfig "azure" {["create_group" := "created"]}).
Proof.
  apply (failure_without_rollback registry_vnet_fails false [] (config_of "azure")
           [ok_step "create_group"; failing_step "create_vnet" quota]
           1 (failing_step "create_vnet" quota) quota).
  { vm_compute. reflexivity. }
  split; [reflexivity|]. split; [|reflexivity].
  intros [|i] s Hi Hs; [|lia]. simpl in Hs. by simplify_eq.
Defined.

(** C3. For a provider identifier outside the recognized set, running the
    composite step on a non-nil configuration returns the error
    "unknown provider: <identifier>" wrapped with the stage name
    "preProvision"; no step is resolved or run, and the output and the
    configuration are as they were. *)
Theorem unknown_provider_error `{Constants} (registry : gmap string Step)
    (done : bool) (sink : list string) (c : Config) :
  ¬ recognized (Provider c) →
  let E := New ("unknown provider: " +:+ Provider c) in
  prepProvisionStepFor registry (Provider c) = ([], Some E) ∧
  StepPreProvision_Run registry done sink (Some c) =
    mkResult done sink (Some c) [] (Returned (Some (withMessage E PreProvisionStep))) ∧
  Error (withMessage E PreProvisionStep) =
    "preProvision: unknown provider: " +:+ Provider c.
Proof.
  intros Hunknown E.
  assert (Hps : prepProvisionStepFor registry (Provider c) = ([], Some E)).
  { pose proof (prepProvisionStepFor_catalog registry (Provider c)) as Hcat.
    destruct (PipelineFor (Provider c)) as [names|] eqn:Hp; [|exact Hcat].
    destruct Hunknown. apply PipelineFor_recognized. by rewrite Hp. }
  split; [exact Hps|]. split; [|reflexivity].
  unfold StepPreProvision_Run. by rewrite Hps.
Qed.

Lemma unknown_provider_error_witness :
  StepPreProvision_Run registry_full false [] (Some (config_of "packet")) =
    mkResult false [] (Some (config_of "packet")) []
      (Returned (Some (withMessage (New "unknown provider: packet") "preProvision"))).
Proof.
  refine (proj1 (proj2 (unknown_provider_error registry_full false []
                          (config_of "packet") _))).
  intros [Hp|[Hp|[Hp|Hp]]]; discriminate Hp.
Defined.

(** C4. For a provider whose resolved pipeline is empty, and so for
    DigitalOcean and GCE (identifiers that differ from AWS, which the
    [switch] tests first), running the composite step returns nil, having
    invoked neither [Run] nor [Rollback] on any step and having left the
    output and the configuration as they were. *)
Theorem empty_pipeline_noop `{Constants} (registry : gmap string Step)
    (done : bool) (sink : list string) (c : Config) :
  prepProvisionStepFor registry (Provider c) = ([], None) ∨
  (Provider c ≠ AWS ∧ (Provider c = DigitalOcean ∨ Provider c = GCE)) →
  StepPreProvision_Run registry done sink (Some c) =
    mkResult done sink (Some c) [] (Returned None).
Proof.
  intros Hempty.
  assert (Hps : prepProvisionStepFor registry (Provider c) = ([], None)).
  { destruct Hempty as [Hps | [Hne Hp]]; [exact Hps|].
    unfold prepProvisionStepFor. rewrite decide_False by exact Hne.
    destruct Hp as [Hp|Hp].
    - by rewrite decide_True.
    - by destruct (decide (Provider c = DigitalOcean)); [|rewrite decide_True]. }
  unfold StepPreProvision_Run. by rewrite Hps.
Qed.

Lemma empty_pipeline_noop_witness :
  StepPreProvision_Run registry_full true ["started"] (Some (config_of "gce")) =
    mkResult true ["started"] (Some (config_of "gce")) [] (Returned None).
Proof.
  apply (empty_pipeline_noop registry_full true ["started"] (config_of "gce")).
  right. split; [discriminate | right; reflexivity].
Defined.

(** C5. Whatever the context and the output, calling [Run] with a nil
    configuration returns the error "invalid config" at once: it does not
    panic, resolves no pipeline, invokes no step and writes nothing. *)
Theorem nil_config_rejected `{Constants} (registry : gmap string Step)
    (done : bool) (sink : list string) :
  let r := StepPreProvision_Run registry done sink None in
  r = mkResult done sink None [] (Returned (Some (New "invalid config"))) ∧
  res_ret r ≠ Panicked ∧ runs (res_log r) = [] ∧ rollbacks (res_log r) = [].
Proof. by repeat split. Qed.



(** The loop on a pipeline that starts with steps among which one fails:
    what comes after these entries, nil or not, is never reached. *)
Lemma range_steps_failure_app (ss : list Step) (tail : list (option Step))
    (m : Mem) (k : nat) (sk : Step) (E : error) :
  first_failure ss m k sk E →
  range_steps ((Some <$> ss) ++ tail) m =
    ((Run sk (mem_after (take k ss) m)).1,
     (ran_ok <$> take k ss) ++ [EvRun sk (Some E)],
     Some (Returned (Some (withMessage E PreProvisionStep)))).
Proof.
  revert m k. induction ss as [|s ss IH]; intros m k Hf.
  - destruct Hf as [Hk _]. by destruct k.
  - destruct k as [|k].
    + destruct Hf as (Hk & _ & HE). simpl in Hk. simplify_eq.
      unfold mem_after in HE. simpl in HE |- *.
      destruct (Run sk m) as [m1 err]. simpl in HE. by subst err.
    + apply first_failure_cons in Hf as [Hs Hrest].
      cbn [fmap list_fmap app range_steps].
      destruct (Run s m) as [m1 err] eqn:Hrun. simpl in Hs, Hrest. subst err.
      rewrite (IH m1 k Hrest). unfold mem_after. simpl. by rewrite Hrun.
Qed.

(** The loop on a pipeline whose steps before a nil entry all succeed:
    they have all been called when the panic occurs. *)
Lemma range_steps_panic_at (ss : list Step) (rest : list (option Step)) (m : Mem) :
  succeeds_before ss m (length ss) →
  range_steps ((Some <$> ss) ++ None :: rest) m =
    (mem_after ss m, ran_ok <$> ss, Some Panicked).
Proof.
  revert m. induction ss as [|s ss IH]; intros m Hok; [reflexivity|].
  simpl in Hok. apply succeeds_before_cons in Hok as [Hs Hrest].
  cbn [fmap list_fmap app range_steps].
  destruct (Run s m) as [m1 err] eqn:Hrun. simpl in Hs, Hrest. subst err.
  rewrite (IH m1 Hrest). unfold mem_after. simpl. by rewrite Hrun.
Qed.

(** C7, as the specification words it, fails: with nothing registered, a run
    for AWS does not return an error; it panics on the first entry of the
    pipeline, which is nil. *)
Lemma lookup_failure_fatal_fails :
  GetStep ∅ StepFindAMI = None ∧
  res_ret (StepPreProvision_Run ∅ false [] (Some (config_of "aws"))) = Panicked ∧
  ¬ lookup_failure_fatal ∅ false [] (config_of "aws").
Proof.
  split; [reflexivity|]. split; [reflexivity|].
  intros Hclaim.
  destruct (Hclaim _ StepFindAMI eq_refl (list_elem_of_here _ _) eq_refl)
    as [e He].
  vm_compute in He. discriminate.
Qed.

(** C7, amended. The engine does not check registry lookups: for a
    recognized provider [prepProvisionStepFor] returns the looked-up entry
    of every name of the catalog entry, nil entries included, and no error.
    When every listed name is registered the run dereferences no nil step.
    In general the run panics on a nil step exactly when the steps listed
    before the first unregistered name have all returned success, and these
    steps have then all been called; when instead one of them fails, the
    run ends there, with that step's error wrapped with the stage name, and
    the unregistered entry is not reached. *)
Theorem lookup_failure_unchecked `{Constants} (registry : gmap string Step)
    (done : bool) (sink : list string) (c : Config) (names : list string) :
  PipelineFor (Provider c) = Some names →
  let r := StepPreProvision_Run registry done sink (Some c) in
  prepProvisionStepFor registry (Provider c) = (GetStep registry <$> names, None) ∧
  ((∀ n, n ∈ names → is_Some (GetStep registry n)) → res_ret r ≠ Panicked) ∧
  (res_ret r = Panicked ↔
   ∃ pre n rest ss,
     names = pre ++ n :: rest ∧
     GetStep registry n = None ∧
     GetStep registry <$> pre = Some <$> ss ∧
     succeeds_before ss (mkMem done sink c) (length ss)) ∧
  (∀ pre n rest ss,
     names = pre ++ n :: rest →
     GetStep registry n = None →
     GetStep registry <$> pre = Some <$> ss →
     (succeeds_before ss (mkMem done sink c) (length ss) →
        res_ret r = Panicked ∧ res_log r = ran_ok <$> ss) ∧
     (∀ k sk E, first_failure ss (mkMem done sink c) k sk E →
        res_ret r = Returned (Some (withMessage E PreProvisionStep)) ∧
        res_log r = (ran_ok <$> take k ss) ++ [EvRun sk (Some E)] ∧
        runs (res_log r) = take (S k) ss)).
Proof.
  intros Hp r.
  pose proof (prepProvisionStepFor_catalog registry (Provider c)) as Hps.
  rewrite Hp in Hps. split; [exact Hps|].
  assert (Hiff : res_ret r = Panicked ↔
                 (range_steps (GetStep registry <$> names) (mkMem done sink c)).2
                 = Some Panicked).
  { subst r. rewrite (Run_resolved _ _ _ _ _ Hps). simpl.
    destruct (range_steps _ _) as [[m log] [o|]]; simpl;
      split; intros Ho; by simplify_eq. }
  assert (Hchar : res_ret r = Panicked ↔
                  ∃ pre n rest ss,
                    names = pre ++ n :: rest ∧
                    GetStep registry n = None ∧
                    GetStep registry <$> pre = Some <$> ss ∧
                    succeeds_before ss (mkMem done sink c) (length ss)).
  { rewrite Hiff, range_steps_panic. split.
    - intros (ss & rest' & Hsplit & Hok).
      apply fmap_app_inv in Hsplit as (pre & suf & Hpre & Hsuf & ->).
      symmetry in Hsuf. apply fmap_cons_inv in Hsuf as (n & rest & Hn & _ & ->).
      by exists pre, n, rest, ss.
    - intros (pre & n & rest & ss & -> & Hn & Hpre & Hok).
      exists ss, (GetStep registry <$> rest). split; [|exact Hok].
      by rewrite fmap_app, fmap_cons, Hn, Hpre. }
  split; [|split; [exact Hchar|]].
  - intros Hall Hpanic.
    apply Hchar in Hpanic as (pre & n & rest & ss & -> & Hn & _).
    destruct (Hall n) as [s Hs]; [|congruence].
    apply elem_of_app. right. apply list_elem_of_here.
  - intros pre n rest ss -> Hn Hpre.
    assert (Hnames : GetStep registry <$> pre ++ n :: rest
                     = (Some <$> ss) ++ None :: (GetStep registry <$> rest)).
    { by rewrite fmap_app, fmap_cons, Hn, Hpre. }
    subst r. rewrite (Run_resolved _ _ _ _ _ Hps), Hnames. split.
    + intros Hok. by rewrite (range_steps_panic_at _ _ _ Hok).
    + intros k sk E Hf. rewrite (range_steps_failure_app _ _ _ _ _ _ Hf). simpl.
      split; [reflexivity|]. split; [reflexivity|]. apply runs_first_failure, Hf.
Qed.

(** On AWS with the nine steps registered, no nil step is reached.  On
    Azure without the virtual network step, the run panics once the
    resource group step has succeeded, and returns the wrapped error of the
    resource group step when that one fails. *)
Lemma lookup_failure_unchecked_witness :
  res_ret (StepPreProvision_Run registry_full false [] (Some (config_of "aws")))
    ≠ Panicked ∧
  (let r := StepPreProvision_Run registry_no_vnet false [] (Some (config_of "azure")) in
   res_ret r = Panicked ∧ res_log r = [ran_ok (ok_step "create_group")]) ∧
  (let r := StepPreProvision_Run registry_group_fails_no_vnet false []
              (Some (config_of "azure")) in
   res_ret r = Returned (Some (withMessage quota "preProvision")) ∧
   res_log r = [EvRun (failing_step "create_group" quota) (Some quota)] ∧
   runs (res_log r) = [failing_step "create_group" quota]).
Proof.
  split; [|split].
  - refine (proj1 (proj2 (lookup_failure_unchecked registry_full false []
                            (config_of "aws") aws_names eq_refl)) _).
    intros n Hn. unfold aws_names in Hn.
    repeat (apply elem_of_cons in Hn as [->|Hn]; [by eexists|]).
    by apply elem_of_nil in Hn.
  - refine (proj1 (proj2 (proj2 (proj2
              (lookup_failure_unchecked registry_no_vnet false []
                 (config_of "azure") azure_names eq_refl)))
              ["create_group"] "create_vnet" [] [ok_step "create_group"]
              eq_refl _ _) _).
    + by vm_compute.
    + by vm_compute.
    + intros [|i] s Hi Hs; [|simpl in Hi; lia]. simpl in Hs. by simplify_eq.
  - refine (proj2 (proj2 (proj2 (proj2
              (lookup_failure_unchecked registry_group_fails_no_vnet false []
                 (config_of "azure") azure_names eq_refl)))
              ["create_group"] "create_vnet" [] [failing_step "create_group" quota]
              eq_refl _ _) 0 (failing_step "create_group" quota) quota _).
    + by vm_compute.
    + by vm_compute.
    + split; [reflexivity|]. split; [apply succeeds_before_0 | reflexivity].
Defined.

(** C8, as the specification words it, fails: with the context cancelled
    from the start on Azure, the second step is called all the same. *)
Lemma cancellation_observed_fails :
  ¬ cancellation_observed registry_full true [] (config_of "azure").
Proof.
  intros Hclaim.
  assert (Hps : prepProvisionStepFor registry_full (Provider (config_of "azure"))
                = (Some <$> [ok_step "create_group"; ok_step "create_vnet"], None))
    by (vm_compute; reflexivity).
  specialize (Hclaim _ 1 Hps ltac:(lia) eq_refl).
  vm_compute in Hclaim. discriminate.
Qed.

(** C8, amended. The engine does not consult the context, it only hands it
    to the steps: once the steps before position [N] have returned success,
    the step at position [N] is called, on the state they left, whether or
    not the context is cancelled at that point; and a run invokes no
    [Rollback]. *)
Theorem cancellation_not_observed `{Constants} (registry : gmap string Step)
    (done : bool) (sink : list string) (c : Config) (ss : list Step)
    (N : nat) (s : Step) :
  prepProvisionStepFor registry (Provider c) = (Some <$> ss, None) →
  ss !! N = Some s →
  succeeds_before ss (mkMem done sink c) N →
  let r := StepPreProvision_Run registry done sink (Some c) in
  res_log r !! N =
    Some (EvRun s (Run s (mem_after (take N ss) (mkMem done sink c))).2) ∧
  rollbacks (res_log r) = [].
Proof.
  intros Hps HN Hok r. subst r. rewrite (Run_resolved _ _ _ _ _ Hps). simpl.
  split; [by apply range_steps_lookup | apply range_steps_rollbacks].
Qed.

(** With the context cancelled before and after the first Azure step, the
    second one is still called, and nothing is rolled back. *)
Lemma cancellation_not_observed_witness :
  let r := StepPreProvision_Run registry_full true [] (Some (config_of "azure")) in
  ctx_done (mem_after [ok_step "create_group"] (mkMem true [] (config_of "azure"))) = true ∧
  res_log r !! 1 = Some (EvRun (ok_step "create_vnet") None) ∧
  rollbacks (res_log r) = [].
Proof.
  split; [reflexivity|].
  apply (cancellation_not_observed registry_full true [] (config_of "azure")
           [ok_step "create_group"; ok_step "create_vnet"] 1
           (ok_step "create_vnet")); [by vm_compute | reflexivity |].
  intros [|i] t Hi Ht; [|lia]. simpl in Ht. by simplify_eq.
Defined.

(** C9. Whatever the context, the output and the configuration pointer
    (nil included, and whether or not [Run] was ever invoked), the composite
    step's [Rollback] returns nil, calls no step and leaves everything as it
    was; invoking it again, or after a [Run], gives the same. *)
Theorem composite_rollback_noop `{Constants} (registry : gmap string Step)
    (done : bool) (sink : list string) (cfg : option Config) :
  let r := StepPreProvision_Rollback done sink cfg in
  r = mkResult done sink cfg [] (Returned None) ∧
  StepPreProvision_Rollback (res_ctx_done r) (res_out r) (res_cfg r) = r ∧
  let after := StepPreProvision_Run registry done sink cfg in
  StepPreProvision_Rollback (res_ctx_done after) (res_out after) (res_cfg after) =
    mkResult (res_ctx_done after) (res_out after) (res_cfg after) [] (Returned None).
Proof. by repeat split. Qed.

(** A full AWS run: the nine steps in catalog order, each reporting on the
    output. *)
Example aws_run_in_catalog_order :
  let r := StepPreProvision_Run registry_full false [] (Some (config_of "aws")) in
  runs (res_log r) = ok_step <$> aws_names ∧
  res_out r = aws_names ∧
  res_ret r = Returned None.
Proof. by vm_compute. Qed.

(** With the first step of the Azure entry not registered, nothing runs
    before the panic. *)
Example azure_group_unregistered :
  let r := StepPreProvision_Run (delete "create_group" registry_full) false []
             (Some (config_of "azure")) in
  res_log r = [] ∧ res_ret r = Panicked.
Proof. by vm_compute. Qed.

(** ** Properties of the kube service *)

Lemma length_substring_0 (n : nat) (s : string) :
  n ≤ String.length s → String.length (String.substring 0 n s) = n.
Proof.
  revert s. induction n as [|n IH]; intros [|a s] Hn; simpl in *;
    try reflexivity; try lia.
  rewrite IH; [reflexivity | lia].
Qed.

(** C10. For a Kube record passed to [Service.Create] (with [uuid.New]
    giving a string of at least 8 bytes, as the 36 bytes of a UUID are): an
    empty [ID] is replaced by the first 8 bytes of a newly generated UUID, a
    non-empty one is kept, and the other fields are untouched; the one call
    of [Put] is made under the service prefix, with that [ID] as key and the
    JSON encoding of the resulting record as value; and [Create] returns an
    error only when marshalling fails (then nothing is put) or when that put
    fails, in each case the error in question, wrapped. *)
Theorem Create_stores_record {Fields Store : Type}
    (json_Marshal : kube.Kube Fields → kube.bytes * option error)
    (s : kube.Service Store) (u : string) (done : bool) (st : Store)
    (k : kube.Kube Fields) :
  8 ≤ String.length u →
  let r := kube.Create json_Marshal s u done st (Some k) in
  ∃ k1,
    kube.cr_kube r = Some k1 ∧
    kube.fields k1 = kube.fields k ∧
    (kube.ID k = "" →
       kube.ID k1 = String.substring 0 8 u ∧ String.length (kube.ID k1) = 8) ∧
    (kube.ID k ≠ "" → k1 = k) ∧
    let raw := (json_Marshal k1).1 in
    let put := kube.storage_Put s done st (kube.prefix s) (kube.ID k1) raw in
    match (json_Marshal k1).2 with
    | Some e =>
        kube.cr_puts r = [] ∧ kube.cr_store r = st ∧
        kube.cr_ret r = Returned (Some (withMessage e "marshal"))
    | None =>
        kube.cr_puts r = [(kube.prefix s, kube.ID k1, raw)] ∧
        kube.cr_store r = put.1 ∧
        kube.cr_ret r =
          Returned (match put.2 with
                    | Some e => Some (withMessage e "storage: put")
                    | None => None
                    end)
    end.
Proof.
  intros Hu r. subst r. unfold kube.Create, kube.slice_to_8.
  rewrite (decide_True (P := 8 ≤ String.length u)) by exact Hu.
  destruct (decide (kube.ID k = "")) as [Hid|Hid].
  - exists (kube.mkKube (String.substring 0 8 u) (kube.fields k)).
    destruct (json_Marshal _) as [raw [e|]] eqn:Hm; simpl.
    + repeat split; try done. by apply length_substring_0.
    + destruct (kube.storage_Put s done st _ _ raw) as [st1 [e|]] eqn:Hput;
        rewrite ?Hput; simpl; repeat split; try done;
        by apply length_substring_0.
  - exists k.
    destruct (json_Marshal k) as [raw [e|]] eqn:Hm; simpl.
    + by repeat split.
    + destruct (kube.storage_Put s done st _ _ raw) as [st1 [e|]] eqn:Hput;
        rewrite ?Hput; simpl; by repeat split.
Qed.

(** A record without identifier, created in the in-memory store: it gets
    the first 8 bytes of the UUID and is put under that key. *)
Lemma Create_stores_record_witness :
  let r := kube.Create marshal_sample (memory_service "/supergiant/kubes/")
             uuid_sample false ∅ (Some (kube.mkKube "" "prod")) in
  ∃ k1,
    kube.cr_kube r = Some k1 ∧
    kube.ID k1 = "6ba7b810" ∧
    kube.cr_puts r = [("/supergiant/kubes/", kube.ID k1, (marshal_sample k1).1)] ∧
    kube.cr_store r = {[ ("/supergiant/kubes/", kube.ID k1) := (marshal_sample k1).1 ]} ∧
    kube.cr_ret r = Returned None.
Proof.
  intros r.
  assert (Hu : 8 ≤ String.length uuid_sample) by (vm_compute; lia).
  destruct (Create_stores_record marshal_sample (memory_service "/supergiant/kubes/")
              uuid_sample false ∅ (kube.mkKube "" "prod") Hu)
    as (k1 & Hk & _ & Hid & _ & Hputs & Hstore & Hret).
  exists k1. split; [exact Hk|]. split; [exact (proj1 (Hid eq_refl))|].
  split; [exact Hputs|]. split; [exact Hstore | exact Hret].
Defined.

(** A caller-supplied identifier is kept, and a failing put surfaces
    wrapped. *)
Example create_put_fails :
  let r := kube.Create marshal_sample (broken_service "/supergiant/kubes/")
             uuid_sample false ∅ (Some (kube.mkKube "c1" "prod")) in
  kube.cr_kube r = Some (kube.mkKube "c1" "prod") ∧
  kube.cr_store r = ∅ ∧
  kube.cr_ret r = Returned (Some (withMessage (New "etcd unavailable") "storage: put")).
Proof. by vm_compute. Qed.

(** Slicing a string shorter than 8 bytes panics, and a nil record is
    dereferenced at once. *)
Example create_panics :
  kube.cr_ret (kube.Create marshal_sample (memory_service "/supergiant/kubes/")
                 "6ba7" false ∅ (Some (kube.mkKube "" "prod"))) = Panicked ∧
  kube.cr_ret (kube.Create marshal_sample (memory_service "/supergiant/kubes/")
                 uuid_sample false ∅ None) = Panicked.
Proof. by vm_compute. Qed.
